(** * yoyodyne.data.batches: padded tensors and padded batches

    A shallow embedding of [src/yoyodyne/data/batches.py].

    - A one-dimensional int64 tensor (a sequence of symbol indices) is a
      [list Z]; a stacked two-dimensional tensor is a [list (list Z)], one
      inner list per row; a boolean tensor is a [list (list bool)].
    - Python integers ([pad_idx], [pad_len], [len(...)]) are [Z].
    - The fill value of [nn.functional.pad] is a C double: [pad_idx] is
      rounded to a double on the way in and converted to int64 when it is
      written.  A double that holds an integer is the [Z] it holds.
    - A Python exception is a value of [exn]; code that may raise returns a
      [result].
    - The constructor may invoke [length_msg_callback]; the arguments it is
      called with are recorded, in order, in a log that is threaded through
      the constructor by the monad [M]. *)

From stdpp Require Import base list numbers.

Local Open Scope Z_scope.

(** ** Exceptions and results *)

Inductive exn : Type :=
  | ValueError_max_empty          (* max() over an empty iterable *)
  | OverflowError_int_to_float    (* a Python int too large for a double *)
  | RuntimeError_fill_overflow    (* a fill value that does not fit int64 *)
  | RuntimeError_negative_size    (* padding down to a negative size *)
  | RuntimeError_stack_empty      (* torch.stack of an empty list *)
  | RuntimeError_stack_sizes      (* torch.stack of tensors of unequal size *)
  | Raised_by_callback (tag : Z). (* whatever the callback chose to raise *)

Inductive result (A : Type) : Type :=
  | Ok (a : A)
  | Raise (e : exn).
Arguments Ok {A} a.
Arguments Raise {A} e.

#[global] Instance result_ret : MRet result := λ A a, Ok a.
#[global] Instance result_bind : MBind result := λ A B k r,
  match r with
  | Ok a => k a
  | Raise e => Raise e
  end.

(** A computation that may call the callback: the log of the arguments the
    callback received so far, and the outcome. *)
Definition M (A : Type) : Type := list Z * result A.

#[global] Instance M_ret : MRet M := λ A a, ([], Ok a).
#[global] Instance M_bind : MBind M := λ A B k m,
  match m with
  | (log, Ok a) => let '(log', r) := k a in (log ++ log', r)
  | (log, Raise e) => (log, Raise e)
  end.

(** Pure code that may raise runs without touching the log. *)
Definition lift {A} (r : result A) : M A := ([], r).

Definition calls {A} (m : M A) : list Z := m.1.
Definition outcome {A} (m : M A) : result A := m.2.

(** A callback either returns ([None]) or raises ([Some tag]). *)
Definition callback : Type := Z → option Z.

Definition invoke (f : callback) (n : Z) : M unit :=
  ([n], match f n with
        | None => Ok ()
        | Some tag => Raise (Raised_by_callback tag)
        end).

(** ** The Python and torch primitives the module uses *)

Module Py.

(** [len(tensor)] of a one-dimensional tensor, [len(padded)] of a stack. *)
Definition len {A} (l : list A) : Z := Z.of_nat (length l).

(** [max(iterable)]: the first item is the candidate, a later item
    replaces it when it is strictly greater; an empty iterable raises. *)
Fixpoint max_from (best : Z) (rest : list Z) : Z :=
  match rest with
  | [] => best
  | x :: rest' => max_from (if best <? x then x else best) rest'
  end.

Definition max (xs : list Z) : result Z :=
  match xs with
  | [] => Raise ValueError_max_empty
  | x :: rest => Ok (max_from x rest)
  end.

(** A list comprehension over a body that may raise: the items are
    evaluated left to right and the first exception ends it. *)
Fixpoint comprehension {A B} (f : A → result B) (l : list A)
    : result (list B) :=
  match l with
  | [] => Ok []
  | x :: l' => y ← f x; ys ← comprehension f l'; mret (y :: ys)
  end.

End Py.

Module Torch.

(** The double nearest to the integer [v], ties to even: an integer of at
    most 53 significant bits is kept, a longer one loses its low bits. *)
Definition round_to_double (v : Z) : Z :=
  let a := Z.abs v in
  let e := Z.log2 a - 52 in
  if e <=? 0 then v
  else
    let q := Z.shiftr a e in
    let r := Z.land a (Z.ones e) in
    let half := Z.shiftl 1 (e - 1) in
    let q' := if (half <? r) || ((r =? half) && Z.odd q) then q + 1 else q in
    Z.sgn v * Z.shiftl q' e.

(** A Python int passed where a double is expected: it is rounded, and
    raises when the result is beyond the largest double. *)
Definition to_double (v : Z) : result Z :=
  let d := round_to_double v in
  if 2 ^ 1024 <=? Z.abs d then Raise OverflowError_int_to_float else Ok d.

(** A double written into an int64 tensor: it has to fit. *)
Definition to_int64 (d : Z) : result Z :=
  if (d <? - 2 ^ 63) || (2 ^ 63 <=? d) then Raise RuntimeError_fill_overflow
  else Ok d.

(** [nn.functional.pad(tensor, (0, padding), "constant", value)] on a
    one-dimensional int64 tensor.  [value] arrives as a double.  Nothing is
    added on the left.  A positive [padding] allocates the longer tensor,
    fills it with [value] and copies [tensor] into its front; otherwise the
    tensor is narrowed to its first [len(tensor) + padding] items, which
    raises when that number is negative, and nothing is filled. *)
Definition pad (tensor : list Z) (padding : Z) (value : Z)
    : result (list Z) :=
  fill ← to_double value;
  if 0 <? padding then
    item ← to_int64 fill;
    Ok (tensor ++ replicate (Z.to_nat padding) item)
  else
    let size := Py.len tensor + padding in
    if size <? 0 then Raise RuntimeError_negative_size
    else Ok (take (Z.to_nat size) tensor).

(** [torch.stack(tensors)] of one-dimensional tensors along a new first
    dimension: the list must be non-empty and the sizes equal. *)
Definition stack (tensors : list (list Z)) : result (list (list Z)) :=
  match tensors with
  | [] => Raise RuntimeError_stack_empty
  | first :: rest =>
      if forallb (λ t, Nat.eqb (length t) (length first)) rest
      then Ok tensors
      else Raise RuntimeError_stack_sizes
  end.

(** [tensor == scalar] on a two-dimensional integer tensor. *)
Definition eq_scalar (t : list (list Z)) (v : Z) : list (list bool) :=
  (λ row : list Z, (λ x, x =? v) <$> row) <$> t.

(** [mask == 0] on a boolean tensor: [True] counts as 1, [False] as 0. *)
Definition bool_eq_scalar (t : list (list bool)) (v : Z)
    : list (list bool) :=
  (λ row : list bool, (λ b, Z.b2z b =? v) <$> row) <$> t.

(** [t.sum(dim=1)] on a two-dimensional boolean tensor: the number of
    [True] items of each row. *)
Definition sum_dim1 (t : list (list bool)) : list Z :=
  (λ row : list bool, foldr Z.add 0 (Z.b2z <$> row)) <$> t.

End Torch.

(** ** class PaddedTensor *)

Module PaddedTensor.

Record t : Type := Build {
  pad_idx : Z;
  padded : list (list Z);
}.

(** [pad_tensor(self, tensor, pad_max)]; [self] is read for [pad_idx]
    only. *)
Definition pad_tensor (pad_idx : Z) (tensor : list Z) (pad_max : Z)
    : result (list Z) :=
  let padding := pad_max - Py.len tensor in
  Torch.pad tensor padding pad_idx.

(** The first statement of [__init__]: the padded length is [pad_len]
    when it is supplied, and the maximum of the input lengths otherwise. *)
Definition choose_pad_len (tensorlist : list (list Z)) (pad_len : option Z)
    : result Z :=
  match pad_len with
  | None => Py.max (Py.len <$> tensorlist)
  | Some n => Ok n
  end.

(** [__init__(self, tensorlist, pad_idx, length_msg_callback, pad_len)]. *)
Definition init (tensorlist : list (list Z)) (pad_idx : Z)
    (length_msg_callback : option callback) (pad_len : option Z) : M t :=
  pad_len ← lift (choose_pad_len tensorlist pad_len);
  _ ← match length_msg_callback with
      | Some f => invoke f pad_len
      | None => mret ()
      end;
  rows ← lift (Py.comprehension
                 (λ tensor, pad_tensor pad_idx tensor pad_len) tensorlist);
  stacked ← lift (Torch.stack rows);
  mret (Build pad_idx stacked).

(** The [mask] property. *)
Definition mask (self : t) : list (list bool) :=
  Torch.eq_scalar (padded self) (pad_idx self).

(** [__len__]. *)
Definition len (self : t) : Z := Py.len (padded self).

(** [lengths]. *)
Definition lengths (self : t) : list Z :=
  Torch.sum_dim1 (Torch.bool_eq_scalar (mask self) 0).

End PaddedTensor.

(** ** class PaddedBatch *)

Module PaddedBatch.

Record t : Type := Build {
  source : PaddedTensor.t;
  features : option PaddedTensor.t;
  target : option PaddedTensor.t;
}.

(** [__init__(self, source, features=None, target=None)]. *)
Definition init (source : PaddedTensor.t)
    (features target : option PaddedTensor.t) : t :=
  Build source features target.

Definition has_features (self : t) : bool :=
  match features self with Some _ => true | None => false end.

Definition has_target (self : t) : bool :=
  match target self with Some _ => true | None => false end.

(** [__len__]. *)
Definition len (self : t) : Z := PaddedTensor.len (source self).

End PaddedBatch.

(** ** Notions used to state the properties *)

(** [s] followed by copies of the sentinel up to length [n]. *)
Definition right_padded (pad_idx n : Z) (s : list Z) : list Z :=
  s ++ replicate (Z.to_nat (n - Py.len s)) pad_idx.

(** [s] brought to length [n]: right-padded when it is shorter, cut to its
    first [n] items when it is longer. *)
Definition fitted (pad_idx n : Z) (s : list Z) : list Z :=
  take (Z.to_nat n) (right_padded pad_idx n s).

(** The sentinel [pad_idx] reaches the padded tensor unchanged: a double
    holds it exactly and it fits int64. *)
Definition representable (pad_idx : Z) : Prop :=
  Torch.to_double pad_idx = Ok pad_idx ∧ Torch.to_int64 pad_idx = Ok pad_idx.

(** [n] is the maximum length over the sequences of [tensorlist]. *)
Definition is_max_len (tensorlist : list (list Z)) (n : Z) : Prop :=
  (∀ s, s ∈ tensorlist → Py.len s ≤ n) ∧ (∃ s, s ∈ tensorlist ∧ Py.len s = n).

(** The callback, if there is one, returns normally when called with [n]. *)
Definition returns_at (cb : option callback) (n : Z) : Prop :=
  match cb with
  | Some f => f n = None
  | None => True
  end.

(** What the log holds after the callback, if there is one, was called
    once with [n]. *)
Definition log_of (cb : option callback) (n : Z) : list Z :=
  match cb with
  | Some _ => [n]
  | None => []
  end.

(** The callback, if there is one, returns normally on the padded length
    the constructor chooses for [tensorlist] and [pad_len]. *)
Definition callback_returns (tensorlist : list (list Z))
    (cb : option callback) (pad_len : option Z) : Prop :=
  ∀ n, PaddedTensor.choose_pad_len tensorlist pad_len = Ok n → returns_at cb n.

(** The entry [t[i][j]] of a two-dimensional tensor, if it exists. *)
Definition entry {A} (t : list (list A)) (i j : nat) : option A :=
  row ← t !! i; row !! j.

(** The number of unmasked items of one row: what [lengths] computes for
    it. *)
Definition unmasked (pad_idx : Z) (row : list Z) : Z :=
  foldr Z.add 0
    (Z.b2z <$> ((λ b, Z.b2z b =? 0) <$> ((λ x, x =? pad_idx) <$> row))).

(** What the callback, if there is one, raises when called with [n]. *)
Definition raised_by (cb : option callback) (n : Z) : option Z :=
  match cb with
  | Some f => f n
  | None => None
  end.

(** The items of a row that are not the sentinel. *)
Definition non_sentinel (pad_idx : Z) (row : list Z) : list Z :=
  filter (λ x, x ≠ pad_idx) row.


(** Unfolds the constructor down to the primitives it sequences. *)
Ltac unfold_init :=
  unfold PaddedTensor.init, mbind, M_bind, mret, M_ret, lift, invoke.

(** * Properties *)

(** ** The primitives *)

Lemma max_from_ge best rest : best ≤ Py.max_from best rest.
Proof.
  revert best. induction rest as [|x rest IH]; intros best; simpl; [lia|].
  specialize (IH (if best <? x then x else best)).
  destruct (Z.ltb_spec best x); lia.
Qed.

Lemma max_from_upper best rest x : x ∈ rest → x ≤ Py.max_from best rest.
Proof.
  revert best. induction rest as [|y rest IH]; intros best Hin; simpl.
  - by apply elem_of_nil in Hin.
  - apply elem_of_cons in Hin as [->|Hin]; [|by apply IH].
    pose proof (max_from_ge (if best <? y then y else best) rest).
    destruct (Z.ltb_spec best y); lia.
Qed.

Lemma max_from_attained best rest : Py.max_from best rest ∈ best :: rest.
Proof.
  revert best. induction rest as [|y rest IH]; intros best; simpl.
  - apply list_elem_of_here.
  - specialize (IH (if best <? y then y else best)).
    apply elem_of_cons in IH as [Heq|Hin].
    + rewrite Heq. destruct (best <? y).
      * apply list_elem_of_further, list_elem_of_here.
      * apply list_elem_of_here.
    + by do 2 apply list_elem_of_further.
Qed.

Lemma max_of_lengths tl :
  tl ≠ [] → ∃ n, Py.max (Py.len <$> tl) = Ok n ∧ is_max_len tl n ∧ 0 ≤ n.
Proof.
  destruct tl as [|s tl]; [done|intros _]. simpl. eexists; split; [done|].
  split; [split|].
  - intros s' Hin. apply elem_of_cons in Hin as [->|Hin].
    + apply max_from_ge.
    + apply max_from_upper. by apply (list_elem_of_fmap_2 Py.len).
  - pose proof (max_from_attained (Py.len s) (Py.len <$> tl)) as Hin.
    apply elem_of_cons in Hin as [Heq|Hin].
    + exists s. split; [apply list_elem_of_here|done].
    + apply list_elem_of_fmap in Hin as (s' & Heq & Hin').
      exists s'. split; [by apply list_elem_of_further|done].
  - trans (Py.len s); [unfold Py.len; lia | apply max_from_ge].
Qed.

Lemma length_fitted pad_idx n s : 0 ≤ n → Py.len (fitted pad_idx n s) = n.
Proof.
  intros Hn. unfold fitted, right_padded, Py.len.
  rewrite length_take, length_app, length_replicate. lia.
Qed.

Lemma fitted_short pad_idx n s :
  Py.len s ≤ n → fitted pad_idx n s = right_padded pad_idx n s.
Proof.
  intros Hle. unfold fitted. apply take_ge.
  unfold right_padded, Py.len in *. rewrite length_app, length_replicate. lia.
Qed.

Lemma fitted_long pad_idx n s :
  n ≤ Py.len s → fitted pad_idx n s = take (Z.to_nat n) s.
Proof.
  intros Hle. unfold fitted, right_padded, Py.len in *.
  replace (Z.to_nat (n - Z.of_nat (length s))) with 0%nat by lia.
  by rewrite app_nil_r.
Qed.

(** *** The fill value *)

Lemma round_to_double_small v :
  - 2 ^ 53 < v < 2 ^ 53 → Torch.round_to_double v = v.
Proof.
  intros Hv. unfold Torch.round_to_double.
  assert (Z.log2 (Z.abs v) < 53) as Hlog.
  { destruct (decide (Z.abs v = 0)) as [->|Hnz]; [done|].
    apply Z.log2_lt_pow2; lia. }
  destruct (Z.leb_spec (Z.log2 (Z.abs v) - 52) 0); [done|lia].
Qed.

(** Every sentinel of at most 53 bits is representable. *)
Lemma small_representable v : - 2 ^ 53 ≤ v ≤ 2 ^ 53 → representable v.
Proof.
  intros Hv.
  destruct (decide (v = 2 ^ 53)) as [->|Hhi]; [by vm_compute|].
  destruct (decide (v = - 2 ^ 53)) as [->|Hlo]; [by vm_compute|].
  unfold representable, Torch.to_double, Torch.to_int64.
  rewrite round_to_double_small by lia. split.
  - destruct (Z.leb_spec (2 ^ 1024) (Z.abs v)); [lia|done].
  - destruct (Z.ltb_spec v (- 2 ^ 63)); [lia|].
    destruct (Z.leb_spec (2 ^ 63) v); [lia|done].
Qed.

Lemma to_double_returned v d :
  Torch.to_double v = Ok d → d = Torch.round_to_double v.
Proof.
  unfold Torch.to_double.
  destruct (2 ^ 1024 <=? Z.abs (Torch.round_to_double v)); [done|].
  congruence.
Qed.

Lemma to_int64_returned d item : Torch.to_int64 d = Ok item → item = d.
Proof.
  unfold Torch.to_int64.
  destruct ((d <? - 2 ^ 63) || (2 ^ 63 <=? d)); [done|]. congruence.
Qed.

(** *** [pad_tensor] *)

(** [pad_tensor] by cases: the sentinel is converted first; a negative
    length raises; a sequence shorter than the length is filled up with the
    converted sentinel; any other sequence is cut and nothing is filled. *)
Lemma pad_tensor_cases pad_idx s n :
  PaddedTensor.pad_tensor pad_idx s n
  = match Torch.to_double pad_idx with
    | Raise e => Raise e
    | Ok d =>
        if n <? 0 then Raise RuntimeError_negative_size
        else if Py.len s <? n then
          match Torch.to_int64 d with
          | Raise e => Raise e
          | Ok item => Ok (fitted item n s)
          end
        else Ok (fitted d n s)
    end.
Proof.
  unfold PaddedTensor.pad_tensor, Torch.pad.
  assert (0 ≤ Py.len s) as Hlen by (unfold Py.len; lia).
  destruct (Torch.to_double pad_idx) as [d|e]; simpl; [|done].
  destruct (Z.ltb_spec n 0) as [Hneg|Hpos].
  - destruct (Z.ltb_spec 0 (n - Py.len s)); [lia|].
    destruct (Z.ltb_spec (Py.len s + (n - Py.len s)) 0); [done|lia].
  - destruct (Z.ltb_spec (Py.len s) n) as [Hshort|Hlong].
    + destruct (Z.ltb_spec 0 (n - Py.len s)); [|lia].
      destruct (Torch.to_int64 d) as [item|e]; simpl; [|done].
      rewrite fitted_short by lia. done.
    + destruct (Z.ltb_spec 0 (n - Py.len s)); [lia|].
      destruct (Z.ltb_spec (Py.len s + (n - Py.len s)) 0); [lia|].
      rewrite fitted_long by lia. do 2 f_equal. lia.
Qed.

Lemma pad_tensor_fitted pad_idx s n :
  representable pad_idx → 0 ≤ n →
  PaddedTensor.pad_tensor pad_idx s n = Ok (fitted pad_idx n s).
Proof.
  intros [Hd Hi] Hn. rewrite pad_tensor_cases, Hd, Hi.
  destruct (Z.ltb_spec n 0); [lia|]. by destruct (Py.len s <? n).
Qed.


(** Whatever the sentinel, a row that [pad_tensor] returns is the sequence
    fitted to the length with the rounded sentinel. *)
Lemma pad_tensor_returned pad_idx s n row :
  PaddedTensor.pad_tensor pad_idx s n = Ok row →
  0 ≤ n ∧ row = fitted (Torch.round_to_double pad_idx) n s.
Proof.
  rewrite pad_tensor_cases.
  destruct (Torch.to_double pad_idx) as [d|e] eqn:Hd; [|done].
  apply to_double_returned in Hd as ->.
  destruct (Z.ltb_spec n 0); [done|].
  destruct (Py.len s <? n).
  - destruct (Torch.to_int64 _) as [item|e] eqn:Hitem; [|done].
    apply to_int64_returned in Hitem as ->. intros [= <-]. done.
  - intros [= <-]. done.
Qed.

Lemma pad_tensor_raised pad_idx s n e :
  PaddedTensor.pad_tensor pad_idx s n = Raise e →
  e = OverflowError_int_to_float ∨ e = RuntimeError_fill_overflow ∨
  (e = RuntimeError_negative_size ∧ n < 0).
Proof.
  rewrite pad_tensor_cases. unfold Torch.to_double.
  destruct (2 ^ 1024 <=? _); [intros [= <-]; by left|].
  destruct (Z.ltb_spec n 0); [intros [= <-]; by right; right|].
  destruct (Py.len s <? n); [|done]. unfold Torch.to_int64.
  destruct (_ || _); [|done]. intros [= <-]. by right; left.
Qed.

(** *** Comprehensions and the stack *)

Lemma comprehension_total {A B} (f : A → result B) (g : A → B) l :
  (∀ x, f x = Ok (g x)) → Py.comprehension f l = Ok (g <$> l).
Proof.
  intros Hf. induction l as [|x l IH]; simpl; [done|].
  by rewrite Hf, IH.
Qed.

Lemma comprehension_returned {A B} (f : A → result B) (g : A → B) l rows :
  (∀ x y, f x = Ok y → y = g x) →
  Py.comprehension f l = Ok rows → rows = g <$> l.
Proof.
  intros Hf. revert rows. induction l as [|x l IH]; intros rows; simpl.
  - by intros [= <-].
  - destruct (f x) as [y|e] eqn:Hx; simpl; [|done].
    destruct (Py.comprehension f l) as [ys|e]; simpl; [|done].
    intros [= <-]. csimpl. by rewrite (Hf x y Hx), (IH ys eq_refl).
Qed.

Lemma comprehension_raised {A B} (f : A → result B) l e :
  Py.comprehension f l = Raise e → ∃ x, x ∈ l ∧ f x = Raise e.
Proof.
  induction l as [|x l IH]; simpl; [done|].
  destruct (f x) as [y|e'] eqn:Hx; simpl.
  - destruct (Py.comprehension f l) as [ys|e'']; simpl; [done|].
    intros [= <-]. destruct (IH eq_refl) as (x' & Hin & Hx').
    exists x'. split; [by apply list_elem_of_further|done].
  - intros [= <-]. exists x. split; [apply list_elem_of_here|done].
Qed.

Lemma comprehension_app {A B} (f : A → result B) l1 l2 rows1 rows2 :
  Py.comprehension f l1 = Ok rows1 →
  Py.comprehension f l2 = Ok rows2 →
  Py.comprehension f (l1 ++ l2) = Ok (rows1 ++ rows2).
Proof.
  revert rows1. induction l1 as [|x l1 IH]; intros rows1; simpl.
  - by intros [= <-].
  - destruct (f x) as [y|e]; simpl; [|done].
    destruct (Py.comprehension f l1) as [ys|e]; simpl; [|done].
    intros [= <-] H2. by rewrite (IH ys eq_refl H2).
Qed.

Lemma stack_same_length n rows :
  rows ≠ [] → Forall (λ row, Py.len row = n) rows → Torch.stack rows = Ok rows.
Proof.
  destruct rows as [|first rest]; [done|intros _ Hall]. simpl.
  apply Forall_cons_1 in Hall as [Hfirst Hrest].
  replace (forallb _ rest) with true; [done|].
  symmetry. apply forallb_forall. intros row Hin.
  apply Nat.eqb_eq. rewrite Forall_forall in Hrest.
  apply Hrest in Hin. unfold Py.len in *. lia.
Qed.

(** ** The constructor *)

(** Once a padded length is chosen the callback, if any, is called with it
    and with nothing else, however the construction ends. *)
Lemma init_calls tl pad_idx cb pad_len n :
  PaddedTensor.choose_pad_len tl pad_len = Ok n →
  calls (PaddedTensor.init tl pad_idx cb pad_len) = log_of cb n.
Proof.
  intros Hn. unfold_init. rewrite Hn.
  destruct cb as [f|]; simpl.
  - destruct (f n); [done|].
    destruct (Py.comprehension _ tl) as [rows|]; [|done].
    by destruct (Torch.stack rows).
  - destruct (Py.comprehension _ tl) as [rows|]; [|done].
    by destruct (Torch.stack rows).
Qed.

(** The outcome of the constructor, step by step. *)
Lemma init_steps tl pad_idx cb pad_len :
  outcome (PaddedTensor.init tl pad_idx cb pad_len)
  = match PaddedTensor.choose_pad_len tl pad_len with
    | Raise e => Raise e
    | Ok n =>
        match raised_by cb n with
        | Some tag => Raise (Raised_by_callback tag)
        | None =>
            match Py.comprehension
                    (λ s, PaddedTensor.pad_tensor pad_idx s n) tl with
            | Raise e => Raise e
            | Ok rows =>
                match Torch.stack rows with
                | Raise e => Raise e
                | Ok stacked => Ok (PaddedTensor.Build pad_idx stacked)
                end
            end
        end
    end.
Proof.
  unfold_init.
  destruct (PaddedTensor.choose_pad_len tl pad_len) as [n|e]; [|done].
  destruct cb as [f|]; simpl.
  - destruct (f n); [done|].
    destruct (Py.comprehension _ tl) as [rows|]; [|done].
    by destruct (Torch.stack rows).
  - destruct (Py.comprehension _ tl) as [rows|]; [|done].
    by destruct (Torch.stack rows).
Qed.

(** The rows that the comprehension of the constructor returns. *)
Lemma rows_returned tl pad_idx n rows :
  Py.comprehension (λ s, PaddedTensor.pad_tensor pad_idx s n) tl = Ok rows →
  rows = fitted (Torch.round_to_double pad_idx) n <$> tl ∧ (tl ≠ [] → 0 ≤ n).
Proof.
  intros Hrows. split.
  - revert Hrows. apply comprehension_returned.
    intros s row Hrow. by apply pad_tensor_returned in Hrow as [_ ->].
  - destruct tl as [|s tl]; [done|intros _]. simpl in Hrows.
    destruct (PaddedTensor.pad_tensor pad_idx s n) as [row|e] eqn:Hrow;
      [|done].
    by apply pad_tensor_returned in Hrow as [? _].
Qed.

(** A non-empty list, a representable sentinel, a non-negative padded
    length and a callback that returns: the construction succeeds and every
    row is fitted to the padded length. *)
Lemma init_fitted tl pad_idx cb pad_len n :
  tl ≠ [] →
  representable pad_idx →
  PaddedTensor.choose_pad_len tl pad_len = Ok n →
  0 ≤ n →
  returns_at cb n →
  PaddedTensor.init tl pad_idx cb pad_len
  = (log_of cb n, Ok (PaddedTensor.Build pad_idx (fitted pad_idx n <$> tl))).
Proof.
  intros Hne Hrep Hn Hpos Hcb. unfold_init. rewrite Hn.
  rewrite (comprehension_total _ (fitted pad_idx n))
    by (intros s; by apply pad_tensor_fitted).
  rewrite (stack_same_length n).
  - destruct cb as [f|]; simpl in *; [by rewrite Hcb|done].
  - by destruct tl.
  - apply Forall_fmap, Forall_forall. intros s _. by apply length_fitted.
Qed.

(** Without [pad_len], a non-empty list, a representable sentinel and a
    callback that returns. *)
Lemma init_max tl pad_idx cb :
  tl ≠ [] →
  ∃ n, PaddedTensor.choose_pad_len tl None = Ok n ∧ is_max_len tl n ∧ 0 ≤ n ∧
    (returns_at cb n → representable pad_idx →
     PaddedTensor.init tl pad_idx cb None
     = (log_of cb n,
        Ok (PaddedTensor.Build pad_idx (right_padded pad_idx n <$> tl)))).
Proof.
  intros Hne. destruct (max_of_lengths tl Hne) as (n & Hn & Hmax & Hpos).
  exists n. repeat split; [done|apply Hmax|apply Hmax|done|].
  intros Hcb Hrep. rewrite (init_fitted tl pad_idx cb None n) by done.
  do 3 f_equal. apply list_fmap_ext. intros i s Hi.
  apply fitted_short, Hmax. by eapply list_elem_of_lookup_2.
Qed.

(** A construction that returns was given a non-empty list, chose a padded
    length that is not negative, and fitted every sequence to it with the
    rounded sentinel. *)
Lemma init_returned tl pad_idx cb pad_len self :
  outcome (PaddedTensor.init tl pad_idx cb pad_len) = Ok self →
  tl ≠ [] ∧
  ∃ n, PaddedTensor.choose_pad_len tl pad_len = Ok n ∧ 0 ≤ n ∧
       raised_by cb n = None ∧
       Py.comprehension (λ s, PaddedTensor.pad_tensor pad_idx s n) tl
       = Ok (PaddedTensor.padded self) ∧
       self = PaddedTensor.Build pad_idx
                (fitted (Torch.round_to_double pad_idx) n <$> tl).
Proof.
  rewrite init_steps. intros Hself.
  destruct (PaddedTensor.choose_pad_len tl pad_len) as [n|e]; [|done].
  destruct (raised_by cb n) eqn:Hcb; [done|].
  destruct (Py.comprehension _ tl) as [rows|e] eqn:Hrows; [|done].
  destruct (rows_returned _ _ _ _ Hrows) as [-> Hpos].
  destruct tl as [|s tl]; [done|]. split; [done|].
  rewrite (stack_same_length n) in Hself.
  - injection Hself as <-. exists n. repeat split; auto.
  - done.
  - apply Forall_fmap, Forall_forall. intros s' _. apply length_fitted. auto.
Qed.

(** Conversely, the rows of the comprehension are all it takes. *)
Lemma init_of_rows tl pad_idx cb pad_len n rows :
  tl ≠ [] →
  PaddedTensor.choose_pad_len tl pad_len = Ok n →
  raised_by cb n = None →
  Py.comprehension (λ s, PaddedTensor.pad_tensor pad_idx s n) tl = Ok rows →
  outcome (PaddedTensor.init tl pad_idx cb pad_len)
  = Ok (PaddedTensor.Build pad_idx rows).
Proof.
  intros Hne Hn Hcb Hrows. rewrite init_steps, Hn, Hcb, Hrows.
  destruct (rows_returned _ _ _ _ Hrows) as [-> Hpos].
  rewrite (stack_same_length n); [done|by destruct tl|].
  apply Forall_fmap, Forall_forall. intros s' _. apply length_fitted. auto.
Qed.

(** ** Mask and lengths *)

Lemma entry_mask (self : PaddedTensor.t) i j :
  entry (PaddedTensor.mask self) i j
  = (λ x, x =? PaddedTensor.pad_idx self) <$> entry (PaddedTensor.padded self) i j.
Proof.
  unfold entry, PaddedTensor.mask, Torch.eq_scalar.
  rewrite list_lookup_fmap.
  destruct (PaddedTensor.padded self !! i) as [row|]; simpl; [|done].
  apply list_lookup_fmap.
Qed.

Lemma lengths_rows (self : PaddedTensor.t) :
  PaddedTensor.lengths self
  = unmasked (PaddedTensor.pad_idx self) <$> PaddedTensor.padded self.
Proof.
  unfold PaddedTensor.lengths, PaddedTensor.mask, Torch.sum_dim1,
    Torch.bool_eq_scalar, Torch.eq_scalar.
  rewrite <- !list_fmap_compose. done.
Qed.

Lemma lookup_right_padded pad_idx n s (j : nat) :
  right_padded pad_idx n s !! j
  = if decide (Z.of_nat j < Py.len s) then s !! j
    else if decide (Z.of_nat j < n) then Some pad_idx else None.
Proof.
  unfold right_padded, Py.len. case_decide as Hj.
  - apply lookup_app_l. lia.
  - rewrite lookup_app_r by lia. case_decide as Hn.
    + apply lookup_replicate_2. lia.
    + apply lookup_replicate_None. lia.
Qed.

Lemma unmasked_app pad_idx l k :
  unmasked pad_idx (l ++ k) = unmasked pad_idx l + unmasked pad_idx k.
Proof.
  unfold unmasked. induction l as [|x l IH]; csimpl; [done|].
  rewrite IH. lia.
Qed.

Lemma unmasked_replicate pad_idx k :
  unmasked pad_idx (replicate k pad_idx) = 0.
Proof.
  unfold unmasked. induction k as [|k IH]; csimpl; [done|].
  rewrite IH, Z.eqb_refl. done.
Qed.

Lemma unmasked_no_sentinel pad_idx s :
  pad_idx ∉ s → unmasked pad_idx s = Py.len s.
Proof.
  unfold unmasked, Py.len. induction s as [|x s IH]; intros Hnot; [done|].
  apply not_elem_of_cons in Hnot as [Hne Hnot]. csimpl.
  rewrite IH by done.
  destruct (Z.eqb_spec x pad_idx); [congruence|]. simpl. lia.
Qed.

(** ** The padded length and the rows *)

(** C3. For a non-empty list and no [pad_len], the chosen padded length is
    the maximum of the input lengths (no input is longer, and some input has
    exactly that length); the padded array of every tensor the construction
    returns has one row per input, and every row has exactly that length.
    The construction does return one when the sentinel is representable and
    the callback, if any, returns. *)
Theorem padded_length_is_max tl pad_idx cb :
  tl ≠ [] →
  ∃ n,
    PaddedTensor.choose_pad_len tl None = Ok n ∧
    is_max_len tl n ∧
    (∀ self,
       outcome (PaddedTensor.init tl pad_idx cb None) = Ok self →
       length (PaddedTensor.padded self) = length tl ∧
       Forall (λ row, Py.len row = n) (PaddedTensor.padded self)) ∧
    (callback_returns tl cb None → representable pad_idx →
     ∃ self, outcome (PaddedTensor.init tl pad_idx cb None) = Ok self).
Proof.
  intros Hne.
  destruct (init_max tl pad_idx cb Hne) as (n & Hn & Hmax & Hpos & Hinit).
  exists n. split; [done|]. split; [done|]. split.
  - intros self Hself.
    apply init_returned in Hself as (_ & n' & Hn' & _ & _ & _ & ->).
    assert (n' = n) as -> by congruence. simpl. split.
    + apply length_fmap.
    + apply Forall_fmap, Forall_forall. intros s _. by apply length_fitted.
  - intros Hcb Hrep. rewrite Hinit by auto. by eexists.
Qed.

Lemma padded_length_is_max_witness :
  ∃ n,
    PaddedTensor.choose_pad_len [[1;2];[1;2;3]] None = Ok n ∧
    is_max_len [[1;2];[1;2;3]] n ∧
    (∀ self,
       outcome (PaddedTensor.init [[1;2];[1;2;3]] 0 None None) = Ok self →
       length (PaddedTensor.padded self) = 2%nat ∧
       Forall (λ row, Py.len row = n) (PaddedTensor.padded self)) ∧
    (callback_returns [[1;2];[1;2;3]] None None → representable 0 →
     ∃ self,
       outcome (PaddedTensor.init [[1;2];[1;2;3]] 0 None None) = Ok self).
Proof.
  apply (padded_length_is_max [[1;2];[1;2;3]] 0 None). discriminate.
Defined.




(** ** The mask *)


(** C1, as stated, fails when a sequence holds the sentinel: for the input
    [[0,1]] with sentinel 0 the mask is true at position 0 of row 0, which
    lies inside the sequence of length 2.  It also fails for a sentinel that
    a double does not hold: with sentinel 2^53 + 1 the sequence [[1]] is
    padded with 2^53, which the mask does not mark. *)
Lemma mask_true_inside_sequence :
  (∃ self,
     PaddedTensor.init [[0;1]] 0 None None = ([], Ok self) ∧
     entry (PaddedTensor.mask self) 0 0 = Some true ∧
     ¬ (Py.len [0;1] ≤ Z.of_nat 0)) ∧
  (∃ self,
     PaddedTensor.init [[1];[2;3]] (2 ^ 53 + 1) None None = ([], Ok self) ∧
     entry (PaddedTensor.mask self) 0 1 = Some false ∧
     Py.len [1] ≤ Z.of_nat 1).
Proof.
  split.
  - eexists. split; [reflexivity|]. split; [reflexivity|]. by vm_compute.
  - eexists. split; [by vm_compute|]. split; by vm_compute.
Qed.

(** C1, amended. Without [pad_len], for a representable sentinel, a callback
    that returns if there is one, and a row whose input sequence does not
    hold the sentinel: the mask entry at position [j] exists exactly for [j]
    below the padded length, and there it is true if and only if [j] is at
    or beyond the length of the input sequence. *)
Theorem mask_marks_padding tl pad_idx cb (i : nat) s :
  tl !! i = Some s →
  pad_idx ∉ s →
  representable pad_idx →
  callback_returns tl cb None →
  ∃ n self,
    PaddedTensor.choose_pad_len tl None = Ok n ∧
    outcome (PaddedTensor.init tl pad_idx cb None) = Ok self ∧
    ∀ j : nat,
      if decide (Z.of_nat j < n) then
        ∃ b, entry (PaddedTensor.mask self) i j = Some b ∧
             (b = true ↔ Py.len s ≤ Z.of_nat j)
      else entry (PaddedTensor.mask self) i j = None.
Proof.
  intros Hi Hnot Hrep Hcb.
  assert (tl ≠ []) as Hne by (intros ->; done).
  destruct (init_max tl pad_idx cb Hne) as (n & Hn & Hmax & Hpos & Hinit).
  rewrite Hinit by auto. exists n; eexists. split; [done|]. split; [done|].
  intros j. rewrite entry_mask. unfold entry. simpl.
  rewrite list_lookup_fmap, Hi. simpl. rewrite lookup_right_padded.
  assert (Py.len s ≤ n) as Hle.
  { apply Hmax. by eapply list_elem_of_lookup_2. }
  destruct (decide (Z.of_nat j < Py.len s)) as [Hj|Hj].
  - rewrite decide_True by lia.
    destruct (lookup_lt_is_Some_2 s j) as [x Hx]; [unfold Py.len in Hj; lia|].
    rewrite Hx. simpl. eexists. split; [done|].
    assert (x ≠ pad_idx) as Hx'.
    { intros ->. apply Hnot. by eapply list_elem_of_lookup_2. }
    apply Z.eqb_neq in Hx'. rewrite Hx'. split; [done|lia].
  - destruct (decide (Z.of_nat j < n)); simpl; [|done].
    eexists. split; [done|]. rewrite Z.eqb_refl. split; [lia|done].
Qed.

Lemma mask_marks_padding_witness :
  ∃ n self,
    PaddedTensor.choose_pad_len [[1;2];[1;2;3]] None = Ok n ∧
    outcome (PaddedTensor.init [[1;2];[1;2;3]] 0 None None) = Ok self ∧
    ∀ j : nat,
      if decide (Z.of_nat j < n) then
        ∃ b, entry (PaddedTensor.mask self) 0 j = Some b ∧
             (b = true ↔ Py.len [1;2] ≤ Z.of_nat j)
      else entry (PaddedTensor.mask self) 0 j = None.
Proof.
  apply (mask_marks_padding [[1;2];[1;2;3]] 0 None 0 [1;2]).
  - reflexivity.
  - intros Hin. repeat (apply elem_of_cons in Hin as [Hin|Hin]; [discriminate|]).
    by apply elem_of_nil in Hin.
  - by vm_compute.
  - intros n _. exact I.
Defined.

(** ** The lengths *)

(** C2, as stated, fails when a sequence holds the sentinel: for the input
    [[0,1]] with sentinel 0, [lengths()] is [1], not the original length 2.
    It also fails for a sentinel that a double does not hold: with sentinel
    2^53 + 1 the padding of [[1]] is 2^53 and is counted. *)
Lemma lengths_miss_sentinel_in_sequence :
  (∃ self,
     PaddedTensor.init [[0;1]] 0 None None = ([], Ok self) ∧
     PaddedTensor.lengths self = [1] ∧
     Py.len <$> [[0;1]] = [2]) ∧
  (∃ self,
     PaddedTensor.init [[1];[2;3]] (2 ^ 53 + 1) None None = ([], Ok self) ∧
     PaddedTensor.lengths self = [2; 2] ∧
     Py.len <$> [[1];[2;3]] = [1; 2]).
Proof.
  split.
  - eexists. split; [reflexivity|]. split; reflexivity.
  - eexists. split; [by vm_compute|]. split; by vm_compute.
Qed.

(** C2, amended. Without [pad_len], for a representable sentinel and a
    callback that returns if there is one, [lengths()] has one item per
    input sequence, and for a row whose input sequence does not hold the
    sentinel that item is the length of the input sequence. *)
Theorem lengths_are_original_lengths tl pad_idx cb (i : nat) s :
  tl !! i = Some s →
  pad_idx ∉ s →
  representable pad_idx →
  callback_returns tl cb None →
  ∃ self,
    outcome (PaddedTensor.init tl pad_idx cb None) = Ok self ∧
    length (PaddedTensor.lengths self) = length tl ∧
    PaddedTensor.lengths self !! i = Some (Py.len s).
Proof.
  intros Hi Hnot Hrep Hcb.
  assert (tl ≠ []) as Hne by (intros ->; done).
  destruct (init_max tl pad_idx cb Hne) as (n & Hn & Hmax & Hpos & Hinit).
  rewrite Hinit by auto. eexists. split; [done|].
  rewrite lengths_rows. simpl. rewrite !length_fmap. split; [done|].
  rewrite !list_lookup_fmap, Hi. simpl. f_equal.
  unfold right_padded.
  rewrite unmasked_app, unmasked_replicate, unmasked_no_sentinel by done. lia.
Qed.

Lemma lengths_are_original_lengths_witness :
  ∃ self,
    outcome (PaddedTensor.init [[1;2];[1;2;3]] 0 None None) = Ok self ∧
    length (PaddedTensor.lengths self) = 2%nat ∧
    PaddedTensor.lengths self !! 0%nat = Some 2.
Proof.
  apply (lengths_are_original_lengths [[1;2];[1;2;3]] 0 None 0 [1;2]).
  - reflexivity.
  - intros Hin. repeat (apply elem_of_cons in Hin as [Hin|Hin]; [discriminate|]).
    by apply elem_of_nil in Hin.
  - by vm_compute.
  - intros n _. exact I.
Defined.

(** ** A supplied length shorter than an input *)

(** C6, as stated, fails for a negative [pad_len]: -1 is shorter than the
    sequence [[1,2]], and the construction raises instead of truncating.  It
    also fails for a sentinel that does not fit int64 once it is a double:
    with sentinel 2^63 - 1 and [pad_len] 2 the row of [[4]] cannot be
    filled, and the construction raises. *)
Lemma negative_pad_len_raises :
  (-1 < Py.len [1;2] ∧
   PaddedTensor.init [[1;2]] 0 None (Some (-1))
   = ([], Raise RuntimeError_negative_size) ∧
   ¬ ∃ self, outcome (PaddedTensor.init [[1;2]] 0 None (Some (-1))) = Ok self) ∧
  (2 < Py.len [1;2;3] ∧
   PaddedTensor.init [[1;2;3];[4]] (2 ^ 63 - 1) None (Some 2)
   = ([], Raise RuntimeError_fill_overflow)).
Proof.
  split.
  - split; [by vm_compute|]. split; [reflexivity|].
    intros [self Hself]. discriminate Hself.
  - split; by vm_compute.
Qed.

(** C6, amended. For a representable sentinel, a supplied [pad_len] that is
    not negative and is shorter than some input sequence, and a callback
    that returns if there is one, the construction raises nothing: every
    row has length [pad_len], and the row of a longer sequence is that
    sequence cut to its first [pad_len] items. *)
Theorem short_pad_len_truncates tl pad_idx cb pad_len :
  0 ≤ pad_len →
  representable pad_idx →
  (∃ s, s ∈ tl ∧ pad_len < Py.len s) →
  returns_at cb pad_len →
  ∃ self,
    outcome (PaddedTensor.init tl pad_idx cb (Some pad_len)) = Ok self ∧
    Forall (λ row, Py.len row = pad_len) (PaddedTensor.padded self) ∧
    ∀ (i : nat) s,
      tl !! i = Some s → pad_len < Py.len s →
      PaddedTensor.padded self !! i = Some (take (Z.to_nat pad_len) s).
Proof.
  intros Hpos Hrep (s0 & Hs0 & _) Hcb.
  assert (tl ≠ []) as Hne.
  { intros ->. by apply elem_of_nil in Hs0. }
  rewrite (init_fitted tl pad_idx cb (Some pad_len) pad_len) by done.
  eexists. split; [done|]. simpl. split.
  - apply Forall_fmap, Forall_forall. intros s _. by apply length_fitted.
  - intros i s Hi Hlt. rewrite list_lookup_fmap, Hi. simpl.
    f_equal. apply fitted_long. lia.
Qed.

Lemma short_pad_len_truncates_witness :
  ∃ self,
    outcome (PaddedTensor.init [[1;2;3];[4]] 0 None (Some 2)) = Ok self ∧
    Forall (λ row, Py.len row = 2) (PaddedTensor.padded self) ∧
    ∀ (i : nat) s,
      [[1;2;3];[4]] !! i = Some s → 2 < Py.len s →
      PaddedTensor.padded self !! i = Some (take (Z.to_nat 2) s).
Proof.
  apply (short_pad_len_truncates [[1;2;3];[4]] 0 None 2).
  - lia.
  - by vm_compute.
  - exists [1;2;3]. split; [apply list_elem_of_here|by vm_compute].
  - exact I.
Defined.

(** ** The callback *)

(** C7, as stated, fails on the empty list without [pad_len]: the callback
    is supplied but never called, the construction raises before. *)
Lemma callback_not_called_on_empty_list :
  PaddedTensor.init [] 0 (Some (λ _, None)) None
  = ([], Raise ValueError_max_empty) ∧
  ¬ ∃ n, calls (PaddedTensor.init [] 0 (Some (λ _, None)) None) = [n].
Proof.
  split; [reflexivity|]. intros [n Hn]. discriminate Hn.
Qed.

(** C7, amended. When [pad_len] is supplied or the list is not empty, a
    supplied callback is called exactly once, with the chosen padded length:
    [pad_len] if it is supplied, the maximum input length otherwise. *)
Theorem callback_called_once tl pad_idx (f : callback) pad_len :
  tl ≠ [] ∨ is_Some pad_len →
  ∃ n,
    calls (PaddedTensor.init tl pad_idx (Some f) pad_len) = [n] ∧
    match pad_len with
    | Some supplied => n = supplied
    | None => is_max_len tl n
    end.
Proof.
  intros Hdom. destruct pad_len as [supplied|].
  - exists supplied. split; [|done].
    by rewrite (init_calls tl pad_idx (Some f) (Some supplied) supplied).
  - destruct Hdom as [Hne|[? ?]]; [|done].
    destruct (max_of_lengths tl Hne) as (n & Hn & Hmax & _).
    exists n. split; [|done].
    by rewrite (init_calls tl pad_idx (Some f) None n).
Qed.

Lemma callback_called_once_witness :
  ∃ n,
    calls (PaddedTensor.init [[1;2];[1;2;3]] 0 (Some (λ _, Some 1)) None) = [n] ∧
    is_max_len [[1;2];[1;2;3]] n.
Proof.
  apply (callback_called_once [[1;2];[1;2;3]] 0 (λ _, Some 1) None).
  left. discriminate.
Defined.

(** ** The empty list *)

(** C10, as stated, fails in its second half: on the empty list a supplied
    [pad_len] does not let the construction return, stacking raises. *)
Lemma empty_list_raises_with_pad_len :
  PaddedTensor.init [] 0 None (Some 0) = ([], Raise RuntimeError_stack_empty) ∧
  ¬ ∃ self, outcome (PaddedTensor.init [] 0 None (Some 0)) = Ok self.
Proof.
  split; [reflexivity|]. intros [self Hself]. discriminate Hself.
Qed.

(** C10, amended. On the empty list without [pad_len] the construction
    raises the exception of [max] over an empty collection, before any call
    of the callback. With a supplied [pad_len] that exception is not raised;
    the callback, if any, is called, and unless it raises itself the
    construction raises because an empty list cannot be stacked. *)
Theorem empty_list_raises pad_idx cb :
  PaddedTensor.init [] pad_idx cb None = ([], Raise ValueError_max_empty) ∧
  ∀ pad_len,
    PaddedTensor.init [] pad_idx cb (Some pad_len)
    = (log_of cb pad_len,
       match cb with
       | Some f =>
           match f pad_len with
           | Some tag => Raise (Raised_by_callback tag)
           | None => Raise RuntimeError_stack_empty
           end
       | None => Raise RuntimeError_stack_empty
       end).
Proof.
  split; [reflexivity|]. intros pad_len. unfold_init. simpl.
  destruct cb as [f|]; simpl; [|done]. by destruct (f pad_len).
Qed.

(** ** PaddedBatch *)

(** C5. The length of a batch is the length of its source, whether or not
    features and target are present. *)
Theorem batch_len_is_source_len source features target :
  PaddedBatch.len (PaddedBatch.init source features target)
  = PaddedTensor.len source.
Proof. by destruct features, target. Qed.

(** ** The example of the specification *)

(** C9. The input [[1,2],[1,2,3]] with sentinel 0 and no [pad_len]. *)
Theorem example_two_sequences :
  ∃ self,
    PaddedTensor.init [[1;2];[1;2;3]] 0 None None = ([], Ok self) ∧
    PaddedTensor.padded self = [[1;2;0];[1;2;3]] ∧
    PaddedTensor.mask self = [[false;false;true];[false;false;false]] ∧
    PaddedTensor.lengths self = [2;3].
Proof. eexists. split; [reflexivity|]. repeat split. Qed.

(** * Further properties of the module *)

(** ** Laws of [pad_tensor] *)

Lemma lookup_fitted pad_idx n s (j : nat) :
  0 ≤ n →
  fitted pad_idx n s !! j
  = if decide (Z.of_nat j < n) then
      if decide (Z.of_nat j < Py.len s) then s !! j else Some pad_idx
    else None.
Proof.
  intros Hn. unfold fitted. rewrite lookup_take, lookup_right_padded.
  repeat case_decide; try done; lia.
Qed.


Lemma fitted_exact pad_idx s : fitted pad_idx (Py.len s) s = s.
Proof.
  rewrite fitted_long by lia. apply take_ge. unfold Py.len. lia.
Qed.

Lemma representable_round pad_idx :
  representable pad_idx → Torch.round_to_double pad_idx = pad_idx.
Proof. intros [Hd _]. symmetry. by apply to_double_returned. Qed.







(** Cutting first and padding afterwards is not padding at once: the items
    cut away are replaced by the sentinel. *)
Example cut_then_pad_differs :
  (row ← PaddedTensor.pad_tensor 0 [1;2;3] 1;
   PaddedTensor.pad_tensor 0 row 3) = Ok [1;0;0].
Proof. reflexivity. Qed.

(** A sentinel that does not fit int64 as a double: padding raises, cutting
    does not. *)
Example unrepresentable_sentinel :
  PaddedTensor.pad_tensor (2 ^ 63 - 1) [1] 2 = Raise RuntimeError_fill_overflow ∧
  PaddedTensor.pad_tensor (2 ^ 63 - 1) [1;2;3] 2 = Ok [1;2] ∧
  PaddedTensor.pad_tensor (2 ^ 53 + 1) [1] 2 = Ok [1; 2 ^ 53].
Proof. repeat split; by vm_compute. Qed.

(** ** How a construction ends *)



Lemma choose_pad_len_cases tl pad_len :
  match PaddedTensor.choose_pad_len tl pad_len with
  | Ok n => (pad_len = Some n ∨ (pad_len = None ∧ is_max_len tl n ∧ 0 ≤ n))
  | Raise e => pad_len = None ∧ tl = [] ∧ e = ValueError_max_empty
  end.
Proof.
  destruct pad_len as [n|]; simpl; [by left|].
  destruct tl as [|s tl]; [done|].
  destruct (max_of_lengths (s :: tl)) as (n & Hn & Hmax & Hpos); [done|].
  simpl in Hn. unfold Py.max. simpl. injection Hn as Hn. rewrite Hn. by right.
Qed.



(** X5. Whatever the arguments, the construction never fails in the stack for
    rows of unequal length, and it raises the error of a negative size only
    for a supplied negative [pad_len]. *)
Theorem init_never_stacks_unequal_rows tl pad_idx cb pad_len :
  outcome (PaddedTensor.init tl pad_idx cb pad_len)
  ≠ Raise RuntimeError_stack_sizes ∧
  (outcome (PaddedTensor.init tl pad_idx cb pad_len)
   = Raise RuntimeError_negative_size →
   ∃ n, pad_len = Some n ∧ n < 0 ∧ tl ≠ []).
Proof.
  rewrite init_steps.
  pose proof (choose_pad_len_cases tl pad_len) as Hcases.
  destruct (PaddedTensor.choose_pad_len tl pad_len) as [n|e].
  - destruct (raised_by cb n); [done|].
    destruct (Py.comprehension _ tl) as [rows|e] eqn:Hrows.
    + destruct (rows_returned _ _ _ _ Hrows) as [-> Hpos].
      destruct tl as [|s tl]; [done|].
      rewrite (stack_same_length n); [done|done|].
      apply Forall_fmap, Forall_forall. intros s' _.
      apply length_fitted. auto.
    + apply comprehension_raised in Hrows as (s & Hs & Hraise).
      apply pad_tensor_raised in Hraise as [->|[->|[-> Hneg]]]; try done.
      split; [done|]. intros _. exists n.
      destruct Hcases as [->|(_ & _ & ?)]; [|lia].
      repeat split; [done|]. intros ->. by apply elem_of_nil in Hs.
  - destruct Hcases as (_ & _ & ->). done.
Qed.

(** X6. A callback that raises on the chosen length ends the construction with
    its own exception, after that one call: nothing is padded or stacked,
    also when padding or stacking would have failed. *)
Theorem callback_exception_ends_construction tl pad_idx (f : callback)
    pad_len n tag :
  PaddedTensor.choose_pad_len tl pad_len = Ok n →
  f n = Some tag →
  PaddedTensor.init tl pad_idx (Some f) pad_len
  = ([n], Raise (Raised_by_callback tag)).
Proof.
  intros Hn Hf. unfold_init. rewrite Hn. simpl. by rewrite Hf.
Qed.

Lemma callback_exception_ends_construction_witness :
  PaddedTensor.init [[1;2;3]] 0
    (Some (λ n, if 2 <? n then Some n else None)) None
  = ([3], Raise (Raised_by_callback 3)).
Proof.
  apply (callback_exception_ends_construction [[1;2;3]] 0
           (λ n, if 2 <? n then Some n else None) None 3 3); reflexivity.
Defined.

(** ** Every constructed tensor *)

Lemma fitted_split pad_idx n s :
  0 ≤ n →
  fitted pad_idx n s
  = take (Z.to_nat n) s ++ replicate (Z.to_nat (n - Py.len s)) pad_idx.
Proof.
  intros Hn. unfold fitted, right_padded, Py.len.
  rewrite take_app, take_replicate. do 2 f_equal. lia.
Qed.

(** A construction with a representable sentinel that returns fitted every
    sequence with the sentinel itself. *)
Lemma init_returned_representable tl pad_idx cb pad_len self :
  representable pad_idx →
  outcome (PaddedTensor.init tl pad_idx cb pad_len) = Ok self →
  tl ≠ [] ∧
  ∃ n, PaddedTensor.choose_pad_len tl pad_len = Ok n ∧ 0 ≤ n ∧
       self = PaddedTensor.Build pad_idx (fitted pad_idx n <$> tl).
Proof.
  intros Hrep Hself.
  apply init_returned in Hself as (Hne & n & Hn & Hpos & _ & _ & ->).
  rewrite representable_round by done. split; [done|]. by exists n.
Qed.



(** X8. Every entry of a tensor constructed with a representable sentinel:
    row [i] has entries exactly at the positions below the padded length;
    inside the input sequence the entry is the item of the sequence, beyond
    it the sentinel.  This holds for a supplied [pad_len] of any size and
    for the default one. *)
Theorem padded_entries tl pad_idx cb pad_len self n (i j : nat) s :
  representable pad_idx →
  outcome (PaddedTensor.init tl pad_idx cb pad_len) = Ok self →
  PaddedTensor.choose_pad_len tl pad_len = Ok n →
  tl !! i = Some s →
  entry (PaddedTensor.padded self) i j
  = if decide (Z.of_nat j < n) then
      if decide (Z.of_nat j < Py.len s) then s !! j else Some pad_idx
    else None.
Proof.
  intros Hrep Hself Hn Hi.
  apply init_returned_representable in Hself as (_ & n' & Hn' & Hpos & ->);
    [|done].
  assert (n' = n) as -> by congruence.
  unfold entry. simpl. rewrite list_lookup_fmap, Hi. simpl.
  by apply lookup_fitted.
Qed.

Lemma padded_entries_witness :
  entry (PaddedTensor.padded (PaddedTensor.Build 0 [[1;2];[4;0]])) 1 1
  = if decide (Z.of_nat 1 < 2) then
      if decide (Z.of_nat 1 < Py.len [4]) then [4] !! 1%nat else Some 0
    else None.
Proof.
  apply (padded_entries [[1;2;3];[4]] 0 None (Some 2));
    (reflexivity || by vm_compute).
Defined.

(** X9. A tensor constructed with a representable sentinel holds nothing but
    items of the inputs and the sentinel: every value of row [i] occurs in
    sequence [i] or is the sentinel. *)
Theorem rows_hold_inputs_or_sentinel tl pad_idx cb pad_len self (i : nat) s :
  representable pad_idx →
  outcome (PaddedTensor.init tl pad_idx cb pad_len) = Ok self →
  tl !! i = Some s →
  ∃ row,
    PaddedTensor.padded self !! i = Some row ∧
    ∀ x, x ∈ row → x ∈ s ∨ x = pad_idx.
Proof.
  intros Hrep Hself Hi.
  apply init_returned_representable in Hself as (_ & n & Hn & Hpos & ->);
    [|done].
  simpl. rewrite list_lookup_fmap, Hi. simpl. eexists. split; [done|].
  intros x. rewrite fitted_split by done. rewrite elem_of_app.
  intros [Hx|Hx].
  - left. by apply (subseteq_take (Z.to_nat n)).
  - right. by apply elem_of_replicate_inv in Hx.
Qed.

Lemma rows_hold_inputs_or_sentinel_witness :
  ∃ row,
    PaddedTensor.padded (PaddedTensor.Build 0 [[1;2];[4;0]]) !! 1%nat
    = Some row ∧
    ∀ x, x ∈ row → x ∈ [4] ∨ x = 0.
Proof.
  apply (rows_hold_inputs_or_sentinel [[1;2;3];[4]] 0 None (Some 2));
    (reflexivity || by vm_compute).
Defined.

(** X10. With a representable sentinel the padding is always masked: in a
    constructed tensor the mask is true at every position of a row that
    lies beyond the input sequence, also when the sequences themselves hold
    the sentinel. *)
Theorem padding_is_masked tl pad_idx cb pad_len self n (i j : nat) s :
  representable pad_idx →
  outcome (PaddedTensor.init tl pad_idx cb pad_len) = Ok self →
  PaddedTensor.choose_pad_len tl pad_len = Ok n →
  tl !! i = Some s →
  Py.len s ≤ Z.of_nat j → Z.of_nat j < n →
  entry (PaddedTensor.mask self) i j = Some true.
Proof.
  intros Hrep Hself Hn Hi Hlo Hhi.
  apply init_returned_representable in Hself as (_ & n' & Hn' & Hpos & ->);
    [|done].
  assert (n' = n) as -> by congruence.
  rewrite entry_mask. unfold entry. simpl.
  rewrite list_lookup_fmap, Hi. simpl. rewrite lookup_fitted by done.
  rewrite decide_True, decide_False by lia. simpl. by rewrite Z.eqb_refl.
Qed.

Lemma padding_is_masked_witness :
  entry (PaddedTensor.mask (PaddedTensor.Build 0 [[0;1;0];[0;0;0]])) 0 2
  = Some true.
Proof.
  apply (padding_is_masked [[0;1];[0;0;0]] 0 None None _ 3 0 2 [0;1]);
    (reflexivity || by vm_compute).
Defined.

(** ** What [lengths] counts *)

Lemma unmasked_non_sentinel pad_idx row :
  unmasked pad_idx row = Py.len (non_sentinel pad_idx row).
Proof.
  unfold unmasked, non_sentinel, Py.len.
  induction row as [|x row IH]; [done|]. csimpl. rewrite IH.
  destruct (Z.eqb_spec x pad_idx) as [->|Hne].
  - rewrite filter_cons_False by (intros Hx; by apply Hx). simpl. lia.
  - rewrite filter_cons_True by done. simpl. lia.
Qed.





(** X13. For a tensor constructed with a representable sentinel, with or
    without [pad_len]: the item of [lengths()] for row [i] is the number of
    items other than the sentinel among the first padded-length items of
    sequence [i]; it never exceeds the length of the sequence nor the padded
    length. *)
Theorem lengths_of_constructed tl pad_idx cb pad_len self n (i : nat) s :
  representable pad_idx →
  outcome (PaddedTensor.init tl pad_idx cb pad_len) = Ok self →
  PaddedTensor.choose_pad_len tl pad_len = Ok n →
  tl !! i = Some s →
  ∃ k,
    PaddedTensor.lengths self !! i = Some k ∧
    k = Py.len (non_sentinel pad_idx (take (Z.to_nat n) s)) ∧
    k ≤ Py.len s ∧ k ≤ n.
Proof.
  intros Hrep Hself Hn Hi.
  apply init_returned_representable in Hself as (_ & n' & Hn' & Hpos & ->);
    [|done].
  assert (n' = n) as -> by congruence.
  rewrite lengths_rows. simpl.
  rewrite !list_lookup_fmap, Hi. simpl. eexists. split; [done|].
  rewrite unmasked_non_sentinel, fitted_split by done. unfold non_sentinel.
  rewrite list.filter_app.
  replace (filter (λ x, x ≠ pad_idx) (replicate _ pad_idx)) with (@nil Z).
  - rewrite app_nil_r. split; [done|].
    pose proof (length_filter (λ x, x ≠ pad_idx) (take (Z.to_nat n) s)) as Hf.
    rewrite length_take in Hf. unfold Py.len. lia.
  - symmetry. induction (Z.to_nat (n - Py.len s)) as [|k IH]; [done|].
    simpl. rewrite filter_cons_False by (intros Hx; by apply Hx). done.
Qed.

Lemma lengths_of_constructed_witness :
  ∃ k,
    PaddedTensor.lengths (PaddedTensor.Build 0 [[1;0];[4;0]]) !! 0%nat
    = Some k ∧
    k = Py.len (non_sentinel 0 (take (Z.to_nat 2) [1;0;3])) ∧
    k ≤ Py.len [1;0;3] ∧ k ≤ 2.
Proof.
  apply (lengths_of_constructed [[1;0;3];[4]] 0 None (Some 2));
    (reflexivity || by vm_compute).
Defined.

(** ** The default padded length and a supplied one *)

(** The constructor reads [pad_len] and the list only to choose the padded
    length: two calls that choose the same length do the same. *)
Lemma init_by_chosen_length tl pad_idx cb pad_len n :
  PaddedTensor.choose_pad_len tl pad_len = Ok n →
  PaddedTensor.init tl pad_idx cb pad_len
  = PaddedTensor.init tl pad_idx cb (Some n).
Proof. intros Hn. unfold_init. by rewrite Hn. Qed.

Lemma is_max_len_unique tl n m : is_max_len tl n → is_max_len tl m → n = m.
Proof.
  intros [Hn (s & Hs & Hsn)] [Hm (s' & Hs' & Hsm)].
  specialize (Hn s' Hs'). specialize (Hm s Hs). lia.
Qed.

(** X14. Without [pad_len] and with a representable sentinel nothing is cut:
    every row is its input sequence followed by sentinels only, and at least
    one row is its input sequence unchanged. *)
Theorem default_length_cuts_nothing tl pad_idx cb self :
  representable pad_idx →
  outcome (PaddedTensor.init tl pad_idx cb None) = Ok self →
  (∀ (i : nat) s, tl !! i = Some s →
     ∃ k, PaddedTensor.padded self !! i = Some (s ++ replicate k pad_idx)) ∧
  (∃ (i : nat) s, tl !! i = Some s ∧ PaddedTensor.padded self !! i = Some s).
Proof.
  intros Hrep Hself.
  apply init_returned_representable in Hself as (Hne & n & Hn & Hpos & ->);
    [|done].
  destruct (max_of_lengths tl Hne) as (n' & Hn' & Hmax & _).
  assert (n' = n) as -> by (simpl in Hn; congruence).
  simpl. split.
  - intros i s Hi. eexists. rewrite list_lookup_fmap, Hi. simpl.
    rewrite fitted_short; [done|].
    apply Hmax. by eapply list_elem_of_lookup_2.
  - destruct Hmax as [_ (s & Hs & Hlen)].
    apply list_elem_of_lookup_1 in Hs as [i Hi]. exists i, s.
    split; [done|]. rewrite list_lookup_fmap, Hi. simpl.
    by rewrite <- Hlen, fitted_exact.
Qed.

Lemma default_length_cuts_nothing_witness :
  (∀ (i : nat) s, [[1;2];[1;2;3]] !! i = Some s →
     ∃ k, PaddedTensor.padded (PaddedTensor.Build 0 [[1;2;0];[1;2;3]]) !! i
          = Some (s ++ replicate k 0)) ∧
  (∃ (i : nat) s,
     [[1;2];[1;2;3]] !! i = Some s ∧
     PaddedTensor.padded (PaddedTensor.Build 0 [[1;2;0];[1;2;3]]) !! i
     = Some s).
Proof.
  apply (default_length_cuts_nothing [[1;2];[1;2;3]] 0 None);
    (reflexivity || by vm_compute).
Defined.

(** X15. Supplying the maximum input length as [pad_len] is the same as
    supplying none: the same calls of the callback and the same outcome. *)
Theorem max_as_pad_len_is_default tl pad_idx cb n :
  is_max_len tl n →
  PaddedTensor.init tl pad_idx cb (Some n)
  = PaddedTensor.init tl pad_idx cb None.
Proof.
  intros Hmax. assert (tl ≠ []) as Hne.
  { destruct Hmax as [_ (s & Hs & _)]. intros ->. by apply elem_of_nil in Hs. }
  destruct (max_of_lengths tl Hne) as (n' & Hn' & Hmax' & _).
  assert (n' = n) as -> by (by eapply is_max_len_unique).
  symmetry. by apply init_by_chosen_length.
Qed.

Lemma max_as_pad_len_is_default_witness :
  PaddedTensor.init [[1;2];[1;2;3]] 0 None (Some 3)
  = PaddedTensor.init [[1;2];[1;2;3]] 0 None None.
Proof.
  apply (max_as_pad_len_is_default [[1;2];[1;2;3]] 0 None 3). split.
  - intros s Hs. repeat (apply elem_of_cons in Hs as [->|Hs]; [by vm_compute|]).
    by apply elem_of_nil in Hs.
  - exists [1;2;3]. split; [|reflexivity].
    apply list_elem_of_further, list_elem_of_here.
Defined.

(** X16. With one supplied [pad_len], batches can be built in pieces: the tensor
    of two lists joined is the rows of the tensor of the first followed by
    the rows of the tensor of the second, and so are its mask and its
    lengths. *)
Theorem supplied_length_splits tl1 tl2 pad_idx n self1 self2 :
  outcome (PaddedTensor.init tl1 pad_idx None (Some n)) = Ok self1 →
  outcome (PaddedTensor.init tl2 pad_idx None (Some n)) = Ok self2 →
  ∃ self,
    outcome (PaddedTensor.init (tl1 ++ tl2) pad_idx None (Some n)) = Ok self ∧
    PaddedTensor.padded self
    = PaddedTensor.padded self1 ++ PaddedTensor.padded self2 ∧
    PaddedTensor.mask self
    = PaddedTensor.mask self1 ++ PaddedTensor.mask self2 ∧
    PaddedTensor.lengths self
    = PaddedTensor.lengths self1 ++ PaddedTensor.lengths self2.
Proof.
  intros H1 H2.
  apply init_returned in H1 as (Hne1 & n1 & Hn1 & _ & _ & Hrows1 & Hself1).
  apply init_returned in H2 as (Hne2 & n2 & Hn2 & _ & _ & Hrows2 & Hself2).
  simpl in Hn1, Hn2. assert (n1 = n) as -> by congruence.
  assert (n2 = n) as -> by congruence.
  assert (PaddedTensor.pad_idx self1 = pad_idx) as Hpad1 by (by rewrite Hself1).
  assert (PaddedTensor.pad_idx self2 = pad_idx) as Hpad2 by (by rewrite Hself2).
  clear Hself1 Hself2.
  rewrite (init_of_rows (tl1 ++ tl2) pad_idx None (Some n) n
             (PaddedTensor.padded self1 ++ PaddedTensor.padded self2)).
  - eexists. split; [done|]. rewrite !lengths_rows.
    unfold PaddedTensor.mask, Torch.eq_scalar. simpl.
    by rewrite Hpad1, Hpad2, !fmap_app.
  - destruct tl1; [done|]. done.
  - done.
  - done.
  - by apply comprehension_app.
Qed.

Lemma supplied_length_splits_witness :
  ∃ self,
    outcome (PaddedTensor.init ([[1;2;3]] ++ [[4]]) 0 None (Some 2)) = Ok self ∧
    PaddedTensor.padded self
    = PaddedTensor.padded (PaddedTensor.Build 0 [[1;2]])
      ++ PaddedTensor.padded (PaddedTensor.Build 0 [[4;0]]) ∧
    PaddedTensor.mask self
    = PaddedTensor.mask (PaddedTensor.Build 0 [[1;2]])
      ++ PaddedTensor.mask (PaddedTensor.Build 0 [[4;0]]) ∧
    PaddedTensor.lengths self
    = PaddedTensor.lengths (PaddedTensor.Build 0 [[1;2]])
      ++ PaddedTensor.lengths (PaddedTensor.Build 0 [[4;0]]).
Proof.
  apply (supplied_length_splits [[1;2;3]] [[4]] 0 2); reflexivity.
Defined.

(** Without [pad_len] this fails: joined with a longer sequence, a row is
    padded further than on its own. *)
Example default_length_does_not_split :
  outcome (PaddedTensor.init [[1]] 0 None None)
  = Ok (PaddedTensor.Build 0 [[1]]) ∧
  outcome (PaddedTensor.init ([[1]] ++ [[2;3]]) 0 None None)
  = Ok (PaddedTensor.Build 0 [[1;0];[2;3]]).
Proof. split; reflexivity. Qed.

(** ** Batches of constructed tensors *)

(** X17. The length of a batch whose source was constructed from a list of
    sequences is the number of sequences, whatever the padded length, and
    whatever features and target are, even when they were built from lists
    of another size. *)
Theorem batch_len_counts_source_sequences tl pad_idx cb pad_len source
    features target :
  outcome (PaddedTensor.init tl pad_idx cb pad_len) = Ok source →
  PaddedBatch.len (PaddedBatch.init source features target) = Py.len tl ∧
  0 < PaddedBatch.len (PaddedBatch.init source features target).
Proof.
  intros Hsource.
  apply init_returned in Hsource as (Hne & n & _ & _ & _ & _ & ->).
  unfold PaddedBatch.len, PaddedTensor.len, Py.len. simpl.
  rewrite length_fmap. split; [done|]. destruct tl; [done|]. simpl. lia.
Qed.

Lemma batch_len_counts_source_sequences_witness :
  PaddedBatch.len
    (PaddedBatch.init (PaddedTensor.Build 0 [[1;2;0];[1;2;3]]) None
       (Some (PaddedTensor.Build 0 [[9]])))
  = Py.len [[1;2];[1;2;3]] ∧
  0 < PaddedBatch.len
        (PaddedBatch.init (PaddedTensor.Build 0 [[1;2;0];[1;2;3]]) None
           (Some (PaddedTensor.Build 0 [[9]]))).
Proof.
  apply (batch_len_counts_source_sequences [[1;2];[1;2;3]] 0 None None).
  reflexivity.
Defined.
